(** * The welcome-message service of [src/sevices.js]

    A shallow embedding of [initServices] and of the three operations it
    returns ([getWelcomeMessage], [healthCheck], [clearCache]) together with
    the internal helper [fetchWithTimeout].

    The JavaScript of the module is effectful: it reads the wall clock, arms
    and clears timers, talks to the network and keeps one mutable cache
    variable in a closure.  The embedding threads an explicit state through
    a small monad whose computations settle with a value, settle with a
    thrown error, or never settle (a promise that stays pending).

    Scope of the model.
    - One call runs from start to settlement; calls of one service instance
      are not interleaved at their [await] points.
    - Numbers are the integer-valued ones (milliseconds, status codes) plus
      [NaN]; that is all the module computes with.  The one sum the module
      forms, [now + cfg.cacheTtlMs], is the exact integer sum: that is the
      sum of the source as long as both operands and the result are safe
      integers ([safe_integer], at most 2^53 - 1 in absolute value), beyond
      which the source's floating-point sum is rounded.
    - The operations are modelled for an effective configuration whose
      [apiUrl] is a string and whose [timeoutMs] and [cacheTtlMs] are
      integers ([Config]); the merge that produces the effective
      configuration is modelled on untyped objects ([initServices_cfg]).
    - Reading the body of a response that has arrived settles (with the
      text, or with a rejection); only the arrival of the response itself is
      raced against the timer, as in the source. *)

From stdpp Require Import gmap strings pretty.

Set Warnings "-register-all".
Set Default Proof Using "Type".

(** ** JavaScript values *)

(** The values the module handles: parsed JSON, configuration fields and the
    members of the objects it returns.  Objects are finite maps from
    property names to values. *)
Inductive JsVal :=
| JUndefined
| JNull
| JBool (b : bool)
| JNaN
| JNum (z : Z)
| JStr (s : string)
| JArr (l : list JsVal)
| JObj (m : gmap string JsVal).

(** ToBoolean: [undefined], [null], [false], [NaN], [0] and the empty string
    are falsy, everything else (every object and array included) is truthy. *)
Definition truthy (v : JsVal) : bool :=
  match v with
  | JUndefined | JNull | JNaN => false
  | JBool b => b
  | JNum z => negb (z =? 0)%Z
  | JStr s => negb (String.eqb s "")
  | JArr _ | JObj _ => true
  end.

(** [a || b] on values that are already evaluated. *)
Definition js_or (a b : JsVal) : JsVal := if truthy a then a else b.

(** [a || b] on strings, as in [err.message || 'unreachable']. *)
Definition str_or (a b : string) : string :=
  if truthy (JStr a) then a else b.

Definition is_null (v : JsVal) : bool :=
  match v with JNull => true | _ => false end.

Definition is_number (v : JsVal) : bool :=
  match v with JNum _ => true | _ => false end.

(** Thrown values: every error this module sees is an Error-like object with
    a [name] and a string [message]. *)
Record JsError := { name : string; message : string }.

(** [new Error(msg)] *)
Definition Error (msg : string) : JsError :=
  {| name := "Error"; message := msg |}.

(** [new TypeError(msg)] *)
Definition TypeError (msg : string) : JsError :=
  {| name := "TypeError"; message := msg |}.

(** What [fetch] rejects with once [controller.abort()] has been called with
    no reason: the platform's [DOMException] named [AbortError]. *)
Definition AbortError : JsError :=
  {| name := "AbortError"; message := "This operation was aborted" |}.

(** ** Configuration (lines 13-20) *)

Section Defaults.
(** [process.env]: the variables that are set, with their text. *)
Variable env : gmap string string.
(** The platform's conversion of a string to a number, [Number(s)]. *)
Variable StringToNumber : string -> JsVal.

(** A value read from [process.env]: the text, or [undefined] when the
    variable is not set. *)
Definition env_value (x : option string) : JsVal :=
  match x with
  | Some s => JStr s
  | None => JUndefined
  end.

(** [Number(process.env.X)]: [Number(undefined)] is [NaN]. *)
Definition Number (x : option string) : JsVal :=
  match x with
  | Some s => StringToNumber s
  | None => JNaN
  end.

Definition DEFAULT_CONFIG : gmap string JsVal :=
  {[ "apiUrl" :=
       js_or (env_value (env !! "WELCOME_API_URL"))
             (JStr "https://api.example.com/welcome");
     "timeoutMs" :=
       js_or (Number (env !! "SERVICE_TIMEOUT_MS")) (JNum 5000);
     "cacheTtlMs" :=
       js_or (Number (env !! "CACHE_TTL_MS")) (JNum 30000) ]}.

(** [{ ...DEFAULT_CONFIG, ...config }]: the own properties of [config]
    are copied over those of the defaults, whatever their values. *)
Definition initServices_cfg (config : gmap string JsVal)
  : gmap string JsVal :=
  config ∪ DEFAULT_CONFIG.
End Defaults.

(** An effective configuration whose fields have the types the operations
    compute with. *)
Record Config := {
  apiUrl : string;
  timeoutMs : Z;
  cacheTtlMs : Z
}.

(** Reading a typed configuration off the merged object. *)
Definition typed_config (o : gmap string JsVal) : option Config :=
  match o !! "apiUrl", o !! "timeoutMs", o !! "cacheTtlMs" with
  | Some (JStr u), Some (JNum t), Some (JNum c) =>
      Some {| apiUrl := u; timeoutMs := t; cacheTtlMs := c |}
  | _, _, _ => None
  end.

(** ** The world outside the service *)

(** A response whose headers have arrived.  [text] and [json] are what
    [res.text()] and [res.json()] settle with: [None] is a rejection (the
    body cannot be read, or is not JSON). *)
Record Response := {
  status : Z;
  text : option string;
  json : option JsVal
}.

(** [res.ok]: the status is in the range 200-299. *)
Definition ok (res : Response) : bool :=
  (200 <=? status res)%Z && (status res <=? 299)%Z.

(** How the network answers one request: a response after [delay]
    milliseconds, a failure after [delay] milliseconds (connection refused,
    name not resolved, ...), or nothing at all. *)
Inductive NetOutcome :=
| Responds (delay : Z) (res : Response)
| Rejects (delay : Z) (e : JsError)
| Silent.

(** What can be observed of a run from outside. *)
Inductive Event :=
| EvFetch (url : string) (options : gmap string JsVal)
| EvAbort.

Record World := {
  clock : Z;                  (* what [Date.now()] reads *)
  network : list NetOutcome;  (* answers to the requests still to come *)
  timers : gmap nat Z;        (* armed timers and the instant each fires *)
  next_timer : nat;           (* the id the next [setTimeout] returns *)
  trace : list Event          (* most recent event first *)
}.

(** The closure variable [cache]. *)
Record Cache := { value : JsVal; expiresAt : Z }.

Record St := { cache : Cache; world : World }.

Definition with_cache (c : Cache) (st : St) : St :=
  {| cache := c; world := world st |}.

Definition with_world (w : World) (st : St) : St :=
  {| cache := cache st; world := w |}.

(** ** The monad of asynchronous computations *)

(** How a computation ends: it returns, it throws, or its promise stays
    pending for ever. *)
Inductive Res (A : Type) :=
| Ok (a : A)
| Throw (e : JsError)
| Pending.
Arguments Ok {A} a.
Arguments Throw {A} e.
Arguments Pending {A}.

Definition M (A : Type) : Type := St -> Res A * St.

Definition ret {A} (a : A) : M A := fun st => (Ok a, st).

Definition throw {A} (e : JsError) : M A := fun st => (Throw e, st).

Definition bind {A B} (m : M A) (k : A -> M B) : M B :=
  fun st =>
    match m st with
    | (Ok a, st') => k a st'
    | (Throw e, st') => (Throw e, st')
    | (Pending, st') => (Pending, st')
    end.

Declare Scope js_scope.
Delimit Scope js_scope with js.
Notation "x <- m ;; k" := (bind m (fun x => k))
  (at level 100, m at next level, right associativity) : js_scope.
Notation "m ;; k" := (bind m (fun _ => k))
  (at level 100, right associativity) : js_scope.
Open Scope js_scope.

(** [try { body } finally { fin }]: [fin] runs once [body] has settled,
    and the outcome of [body] stands unless [fin] itself throws. *)
Definition try_finally {A} (body : M A) (fin : M unit) : M A :=
  fun st =>
    match body st with
    | (Pending, st') => (Pending, st')
    | (r, st') =>
        match fin st' with
        | (Ok _, st'') => (r, st'')
        | (Throw e, st'') => (Throw e, st'')
        | (Pending, st'') => (Pending, st'')
        end
    end.

(** [try { body } catch (err) { handler }] *)
Definition try_catch {A} (body : M A) (handler : JsError -> M A) : M A :=
  fun st =>
    match body st with
    | (Throw e, st') => handler e st'
    | other => other
    end.

(** The final state and the outcome of running a computation. *)
Definition exec {A} (m : M A) (st : St) : St := snd (m st).
Definition outcome {A} (m : M A) (st : St) : Res A := fst (m st).

(** ** Platform primitives *)

(** [Date.now()] *)
Definition Date_now : M Z := fun st => (Ok (clock (world st)), st).

Definition read_cache : M Cache := fun st => (Ok (cache st), st).

Definition write_cache (c : Cache) : M unit :=
  fun st => (Ok tt, with_cache c st).

(** The delay a Node.js timer really waits: a delay below 1 or above
    2^31-1 milliseconds is replaced by 1. *)
Definition TIMEOUT_MAX : Z := 2147483647.

Definition timer_delay (ms : Z) : Z :=
  if (1 <=? ms)%Z && (ms <=? TIMEOUT_MAX)%Z then ms else 1%Z.

(** [setTimeout(callback, ms)]: arms a timer and returns its id.  The only
    callback this module installs is [() => controller.abort()]; [fetch]
    below acts on it when the timer fires first. *)
Definition setTimeout (ms : Z) : M nat :=
  fun st =>
    let w := world st in
    let id := next_timer w in
    (Ok id,
     with_world
       {| clock := clock w;
          network := network w;
          timers := <[id := (clock w + timer_delay ms)%Z]> (timers w);
          next_timer := S id;
          trace := trace w |} st).

(** [clearTimeout(id)]: disarms the timer; no effect when it is not armed. *)
Definition clearTimeout (id : nat) : M unit :=
  fun st =>
    let w := world st in
    (Ok tt,
     with_world
       {| clock := clock w;
          network := network w;
          timers := delete id (timers w);
          next_timer := next_timer w;
          trace := trace w |} st).

(** How a request settles when nothing aborts it. *)
Inductive Settled :=
| Fulfilled (res : Response)
| Rejected (e : JsError).

Definition settled_res (s : Settled) : Res Response :=
  match s with
  | Fulfilled res => Ok res
  | Rejected e => Throw e
  end.

(** When the request settles on its own, and how. *)
Definition settles (o : NetOutcome) : option (Z * Settled) :=
  match o with
  | Responds d res => Some (d, Fulfilled res)
  | Rejects d e => Some (d, Rejected e)
  | Silent => None
  end.

(** The world after a request has been handed to the network and the clock
    has moved to [t]. *)
Definition requested (url : string) (options : gmap string JsVal)
    (t : Z) (w : World) : World :=
  {| clock := t;
     network := tail (network w);
     timers := timers w;
     next_timer := next_timer w;
     trace := EvFetch url options :: trace w |}.

(** The world after timer [id] has fired at [t] and its callback has
    aborted the request. *)
Definition fired (id : nat) (t : Z) (w : World) : World :=
  {| clock := t;
     network := network w;
     timers := delete id (timers w);
     next_timer := next_timer w;
     trace := EvAbort :: trace w |}.

(** [await fetch(url, { ...options, signal: controller.signal })] where
    [controller] is the one timer [id] aborts.  The request races against
    the timer: if it settles strictly before the timer fires, that is the
    outcome; otherwise the timer fires, the request is aborted and [fetch]
    rejects with [AbortError].  With no timer armed nothing can abort the
    request. *)
Definition fetch (url : string) (options : gmap string JsVal) (id : nat)
  : M Response :=
  fun st =>
    let w := world st in
    let o := hd Silent (network w) in
    match timers w !! id, settles o with
    | Some deadline, Some (d, r) =>
        if (clock w + d <? deadline)%Z
        then (settled_res r,
              with_world (requested url options (clock w + d) w) st)
        else (Throw AbortError,
              with_world (fired id deadline
                            (requested url options (clock w) w)) st)
    | Some deadline, None =>
        (Throw AbortError,
         with_world (fired id deadline
                       (requested url options (clock w) w)) st)
    | None, Some (d, r) =>
        (settled_res r,
         with_world (requested url options (clock w + d) w) st)
    | None, None =>
        (Pending, with_world (requested url options (clock w) w) st)
    end.

(** The [message] member of a value that is neither [undefined] nor
    [null]: the own property of an object, and [undefined] for every other
    value (no prototype of the built-in types defines [message]). *)
Definition message_field (v : JsVal) : JsVal :=
  match v with
  | JObj m => default JUndefined (m !! "message")
  | _ => JUndefined
  end.

(** [v.message]: reading a property of [undefined] or [null] throws. *)
Definition read_message (v : JsVal) : M JsVal :=
  match v with
  | JUndefined | JNull =>
      throw (TypeError "Cannot read properties of undefined or null")
  | _ => ret (message_field v)
  end.

(** ** The service (lines 19-72) *)

(** [let cache = { value: null, expiresAt: 0 }] *)
Definition empty_cache : Cache := {| value := JNull; expiresAt := 0 |}.

Section Service.
(** The effective configuration [cfg] captured by the closures. *)
Variable cfg : Config.

(** Lines 23-37. *)
Definition fetchWithTimeout (url : string) (options : gmap string JsVal)
  : M JsVal :=
  id <- setTimeout (timeoutMs cfg) ;;
  try_finally
    (res <- fetch url options id ;;
     clearTimeout id ;;
     if negb (ok res) then
       let txt := default "" (text res) in
       throw (Error ("HTTP " +:+ pretty (status res) +:+ ": " +:+ txt))
     else
       ret (default (JObj ∅) (json res)))
    (clearTimeout id).

(** The test of line 41 on the cache slot, [cache.value &&
    cache.expiresAt > now]. *)
Definition cache_hit (c : Cache) (now : Z) : bool :=
  truthy (value c) && (expiresAt c >? now)%Z.

(** Lines 39-49. *)
Definition getWelcomeMessage (force : bool) : M JsVal :=
  now <- Date_now ;;
  c <- read_cache ;;
  if negb force && cache_hit c now then
    ret (value c)
  else
    data <- fetchWithTimeout (apiUrl cfg) ∅ ;;
    field <- (if truthy data then read_message data else ret data) ;;
    let message := js_or field (JStr "Welcome") in
    write_cache {| value := message;
                   expiresAt := (now + cacheTtlMs cfg)%Z |} ;;
    ret message.

(** Lines 51-60.  The result is the object literal the source returns. *)
Definition healthCheck : M (gmap string JsVal) :=
  try_catch
    (res <- fetchWithTimeout (apiUrl cfg) {[ "method" := JStr "HEAD" ]} ;;
     ret {[ "ok" := JBool true;
            "info" := JStr "up";
            "endpoint" := JStr (apiUrl cfg) ]})
    (fun err =>
     ret {[ "ok" := JBool false;
            "info" := JStr (str_or (message err) "unreachable");
            "endpoint" := JStr (apiUrl cfg) ]}).

(** Lines 62-64. *)
Definition clearCache : M unit := write_cache empty_cache.

(** The state of a fresh instance: the cache of line 21, in any world. *)
Definition initial (w : World) : St := {| cache := empty_cache; world := w |}.

(** The states one service instance can be in: it starts with an empty
    cache, its operations are called one after the other, and between
    two calls the world (clock, network) may change in any way. *)
Inductive reachable : St -> Prop :=
| reach_init w : reachable (initial w)
| reach_getWelcomeMessage force st :
    reachable st -> reachable (exec (getWelcomeMessage force) st)
| reach_healthCheck st :
    reachable st -> reachable (exec healthCheck st)
| reach_clearCache st :
    reachable st -> reachable (exec clearCache st)
| reach_world w st :
    reachable st -> reachable (with_world w st).

(** The spec's notion of a fresh slot: a value is present and the current
    time is before the expiry instant. *)
Definition fresh (c : Cache) (now : Z) : bool :=
  negb (is_null (value c)) && (now <? expiresAt c)%Z.

(** The invariant of the cache slot. *)
Definition cache_inv (c : Cache) : Prop :=
  (value c = JNull /\ expiresAt c = 0%Z) \/ truthy (value c) = true.
End Service.

(** The request still being in flight when [t] milliseconds have passed:
    nothing has arrived, neither a response nor a failure. *)
Definition in_flight_after (t : Z) (o : NetOutcome) : Prop :=
  match settles o with
  | Some (d, _) => (t < d)%Z
  | None => True
  end.

(** The number of requests handed to the network in a trace. *)
Definition is_fetch (e : Event) : bool :=
  match e with EvFetch _ _ => true | EvAbort => false end.

Definition requests (w : World) : nat :=
  length (filter (fun e => is_fetch e = true) (trace w)).

(** ** Sample runs *)

Definition cfg0 : Config :=
  {| apiUrl := "https://api.example.com/welcome";
     timeoutMs := 5000;
     cacheTtlMs := 30000 |}.

Definition world0 (net : list NetOutcome) : World :=
  {| clock := 1000; network := net; timers := ∅; next_timer := 0;
     trace := [] |}.

Definition hi_there : Response :=
  {| status := 200; text := Some "{}";
     json := Some (JObj {[ "message" := JStr "Hi there" ]}) |}.

Definition not_found : Response :=
  {| status := 404; text := Some "gone"; json := None |}.

Definition unparsable : Response :=
  {| status := 200; text := None; json := None |}.

(** A service that has just been constructed, and one that has fetched
    and cached a message 20 ms later. *)
Definition st_new (net : list NetOutcome) : St := initial (world0 net).

Definition st_cached : St :=
  exec (getWelcomeMessage cfg0 false) (st_new [Responds 20 hi_there]).

(** [Number] on no text at all; with an empty environment it is never
    called. *)
Definition no_number (s : string) : JsVal := JNaN.

(** A configuration whose entries live for 10 ms only. *)
Definition cfg_short : Config :=
  {| apiUrl := "https://api.example.com/welcome";
     timeoutMs := 5000;
     cacheTtlMs := 10 |}.

(** A quiet world whose clock reads [t]. *)
Definition world_at (t : Z) (net : list NetOutcome) : World :=
  {| clock := t; network := net; timers := ∅; next_timer := 0; trace := [] |}.

Definition refused : JsError := TypeError "fetch failed".

(** A conversion that knows one text only. *)
Definition number_250 (s : string) : JsVal :=
  if String.eqb s "250" then JNum 250 else JNaN.

(** ** The spec's wording of the numeric fallback *)

(** "Malformed numeric inputs fall back to defaults", read on the object
    passed to construction: a value that is not a number, supplied for
    [timeoutMs] or [cacheTtlMs], gives way to 5000 or 30000. *)
Definition malformed_falls_back (env : gmap string string)
    (StringToNumber : string -> JsVal) (config : gmap string JsVal) : Prop :=
  (forall v, config !! "timeoutMs" = Some v -> is_number v = false ->
     initServices_cfg env StringToNumber config !! "timeoutMs"
       = Some (JNum 5000))
  /\ (forall v, config !! "cacheTtlMs" = Some v -> is_number v = false ->
     initServices_cfg env StringToNumber config !! "cacheTtlMs"
       = Some (JNum 30000)).

(** * Properties *)

(** ** The timed fetch, in closed form *)

(** The request settles before a timer of [delay] milliseconds fires. *)
Definition wins_race (delay : Z) (o : NetOutcome) : option (Z * Settled) :=
  match settles o with
  | Some (d, r) => if (d <? delay)%Z then Some (d, r) else None
  | None => None
  end.

(** The state [fetchWithTimeout] leaves: the request is in the trace
    (followed by the abort, if any), its answer is consumed, the timer that
    was armed is gone and the clock stands at [t]. *)
Definition after_fetch (url : string) (options : gmap string JsVal)
    (aborted : bool) (t : Z) (st : St) : St :=
  let w := world st in
  with_world
    {| clock := t;
       network := tail (network w);
       timers := delete (next_timer w) (timers w);
       next_timer := S (next_timer w);
       trace := (if aborted then [EvAbort] else [])
                  ++ EvFetch url options :: trace w |} st.

(** What [fetchWithTimeout] makes of a response that arrived in time. *)
Definition http_error (res : Response) : JsError :=
  Error ("HTTP " +:+ pretty (status res) +:+ ": " +:+ default "" (text res)).

Definition body_or_error (res : Response) : Res JsVal :=
  if ok res then Ok (default (JObj ∅) (json res)) else Throw (http_error res).

(** The call goes past the test of line 41 and performs the fetch: [force]
    is set, or the slot holds no usable value, or the value has expired. *)
Definition performs_fetch (force : bool) (st : St) : Prop :=
  negb force && cache_hit (cache st) (clock (world st)) = false.

(** Line 46 as a value: [(data && data.message) || 'Welcome']. *)
Definition extracted_message (data : JsVal) : JsVal :=
  js_or (if truthy data then message_field data else data) (JStr "Welcome").

(** [Number.isSafeInteger]: an integer that floating-point arithmetic
    represents exactly, at most 2^53 - 1 in absolute value. *)
Definition MAX_SAFE_INTEGER : Z := 9007199254740991.

Definition safe_integer (z : Z) : Prop := (Z.abs z <= MAX_SAFE_INTEGER)%Z.

(** ** The spec's wording of the expiry *)

(** "Overwrite the cache slot with the extracted message and an expiry of
    (current time + TTL)", the current time being the one at which the slot
    is overwritten, that is the clock once the call has settled. *)
Definition expiry_counted_from_overwrite (cfg : Config) (force : bool)
    (st : St) : Prop :=
  forall data,
    performs_fetch force st ->
    outcome (fetchWithTimeout cfg (apiUrl cfg) ∅) st = Ok data ->
    outcome (getWelcomeMessage cfg force) st = Ok (extracted_message data)
    /\ cache (exec (getWelcomeMessage cfg force) st)
         = {| value := extracted_message data;
              expiresAt :=
                (clock (world (exec (getWelcomeMessage cfg force) st))
                 + cacheTtlMs cfg)%Z |}.

Section ServiceFacts.
Variable cfg : Config.

Lemma fetchWithTimeout_eq url options st :
  fetchWithTimeout cfg url options st =
    let w := world st in
    match wins_race (timer_delay (timeoutMs cfg))
                    (hd Silent (network w)) with
    | Some (d, Fulfilled res) =>
        (body_or_error res, after_fetch url options false (clock w + d) st)
    | Some (d, Rejected e) =>
        (Throw e, after_fetch url options false (clock w + d) st)
    | None =>
        (Throw AbortError,
         after_fetch url options true
           (clock w + timer_delay (timeoutMs cfg)) st)
    end.
Proof.
  destruct st as [c w]. unfold fetchWithTimeout, wins_race, after_fetch.
  unfold bind, try_finally, setTimeout, fetch, clearTimeout; cbn.
  rewrite lookup_insert_eq.
  destruct (settles (hd Silent (network w))) as [[d r]|]; cbn.
  - replace (clock w + d <? clock w + timer_delay (timeoutMs cfg))%Z
      with (d <? timer_delay (timeoutMs cfg))%Z
      by (apply eq_iff_eq_true; rewrite !Z.ltb_lt; lia).
    destruct (d <? timer_delay (timeoutMs cfg))%Z; cbn.
    + destruct r as [res|e]; cbn.
      * unfold body_or_error, http_error.
        destruct (ok res); cbn; unfold with_world; cbn;
          by rewrite !delete_insert_eq, ?delete_delete_eq.
      * unfold with_world; cbn. by rewrite delete_insert_eq.
    + unfold with_world; cbn.
      by rewrite !delete_insert_eq, ?delete_delete_eq.
  - unfold with_world; cbn.
    by rewrite !delete_insert_eq, ?delete_delete_eq.
Qed.

(** The timed fetch always settles, and never touches the cache. *)
Lemma fetchWithTimeout_settles url options st :
  outcome (fetchWithTimeout cfg url options) st <> Pending.
Proof.
  unfold outcome. rewrite fetchWithTimeout_eq; cbn.
  destruct (wins_race _ _) as [[d [res|e]]|]; cbn; try done.
  unfold body_or_error. by destruct (ok res).
Qed.

Lemma fetchWithTimeout_cache url options st :
  cache (exec (fetchWithTimeout cfg url options) st) = cache st.
Proof.
  unfold exec. rewrite fetchWithTimeout_eq; cbn.
  by destruct (wins_race _ _) as [[d [res|e]]|].
Qed.

Lemma fetchWithTimeout_trace url options st :
  exists pre,
    trace (world (exec (fetchWithTimeout cfg url options) st))
      = pre ++ EvFetch url options :: trace (world st)
    /\ (pre = [] \/ pre = [EvAbort]).
Proof.
  unfold exec. rewrite fetchWithTimeout_eq; cbn.
  destruct (wins_race _ _) as [[d [res|e]]|]; cbn;
    [exists [] | exists [] | exists [EvAbort]]; auto.
Qed.

Lemma read_message_truthy data st :
  truthy data = true -> read_message data st = (Ok (message_field data), st).
Proof. by destruct data. Qed.

(** A cache hit: line 42. *)
Lemma getWelcomeMessage_hit force st :
  negb force && cache_hit (cache st) (clock (world st)) = true ->
  getWelcomeMessage cfg force st = (Ok (value (cache st)), st).
Proof.
  intros Hhit. unfold getWelcomeMessage, bind, Date_now, read_cache; cbn.
  by rewrite Hhit.
Qed.

(** A cache miss: lines 45-48 after the timed fetch. *)
Lemma getWelcomeMessage_miss force st :
  negb force && cache_hit (cache st) (clock (world st)) = false ->
  getWelcomeMessage cfg force st =
    match fetchWithTimeout cfg (apiUrl cfg) ∅ st with
    | (Ok data, st') =>
        (Ok (extracted_message data),
         with_cache {| value := extracted_message data;
                       expiresAt := (clock (world st) + cacheTtlMs cfg)%Z |}
                    st')
    | (Throw e, st') => (Throw e, st')
    | (Pending, st') => (Pending, st')
    end.
Proof.
  intros Hmiss. unfold getWelcomeMessage, bind, Date_now, read_cache.
  cbn -[fetchWithTimeout]. rewrite Hmiss.
  destruct (fetchWithTimeout cfg (apiUrl cfg) ∅ st) as [[data|e|] st'];
    try done.
  unfold extracted_message, write_cache, ret.
  destruct (truthy data) eqn:Ht; [by rewrite read_message_truthy|done].
Qed.

Lemma extracted_message_truthy data : truthy (extracted_message data) = true.
Proof.
  unfold extracted_message, js_or.
  by destruct (truthy (if truthy data then _ else _)) eqn:E.
Qed.
End ServiceFacts.

Section Claims.
Variable cfg : Config.

Lemma healthCheck_eq st :
  healthCheck cfg st =
    match fetchWithTimeout cfg (apiUrl cfg) {[ "method" := JStr "HEAD" ]} st
    with
    | (Ok _, st') =>
        (Ok {[ "ok" := JBool true; "info" := JStr "up";
               "endpoint" := JStr (apiUrl cfg) ]}, st')
    | (Throw err, st') =>
        (Ok {[ "ok" := JBool false;
               "info" := JStr (str_or (message err) "unreachable");
               "endpoint" := JStr (apiUrl cfg) ]}, st')
    | (Pending, st') => (Pending, st')
    end.
Proof.
  unfold healthCheck, try_catch, bind.
  by destruct (fetchWithTimeout _ _ _ st) as [[data|e|] st'].
Qed.

Lemma healthCheck_cache st : cache (exec (healthCheck cfg) st) = cache st.
Proof.
  unfold exec. rewrite healthCheck_eq.
  pose proof (fetchWithTimeout_cache cfg (apiUrl cfg)
                {[ "method" := JStr "HEAD" ]} st) as Hc.
  unfold exec in Hc.
  by destruct (fetchWithTimeout _ _ _ st) as [[data|e|] st'].
Qed.

Lemma getWelcomeMessage_inv force st :
  cache_inv (cache st) ->
  cache_inv (cache (exec (getWelcomeMessage cfg force) st)).
Proof.
  intros Hinv. unfold exec.
  destruct (negb force && cache_hit (cache st) (clock (world st))) eqn:Hhit.
  - by rewrite getWelcomeMessage_hit.
  - rewrite getWelcomeMessage_miss by done.
    pose proof (fetchWithTimeout_cache cfg (apiUrl cfg) ∅ st) as Hc.
    unfold exec in Hc.
    destruct (fetchWithTimeout _ _ _ st) as [[data|e|] st']; cbn in *.
    + right. apply extracted_message_truthy.
    + by rewrite Hc.
    + by rewrite Hc.
Qed.

Lemma reachable_cache_inv st : reachable cfg st -> cache_inv (cache st).
Proof.
  induction 1 as [w|force st _ IH|st _ IH|st _ IH|w st _ IH]; cbn.
  - by left.
  - by apply getWelcomeMessage_inv.
  - by rewrite healthCheck_cache.
  - by left.
  - done.
Qed.

Lemma cache_inv_hit_fresh c now :
  cache_inv c -> cache_hit c now = fresh c now.
Proof.
  unfold cache_hit, fresh. rewrite Z.gtb_ltb.
  intros [[-> _]|Ht]; [done|].
  rewrite Ht. by destruct (value c).
Qed.


Lemma timer_delay_le t d : (0 <= t)%Z -> (t < d)%Z -> (timer_delay t <= d)%Z.
Proof.
  unfold timer_delay, TIMEOUT_MAX. intros Ht Hd.
  destruct (1 <=? t)%Z eqn:E1; destruct (t <=? 2147483647)%Z eqn:E2; cbn; lia.
Qed.

Lemma in_time_wins d r o :
  settles o = Some (d, r) -> (d < timer_delay (timeoutMs cfg))%Z ->
  wins_race (timer_delay (timeoutMs cfg)) o = Some (d, r).
Proof.
  intros Hs Hd. unfold wins_race. rewrite Hs.
  by apply Z.ltb_lt in Hd as ->.
Qed.

Lemma in_flight_loses o :
  (0 <= timeoutMs cfg)%Z -> in_flight_after (timeoutMs cfg) o ->
  wins_race (timer_delay (timeoutMs cfg)) o = None.
Proof.
  unfold in_flight_after, wins_race. intros Ht Hf.
  destruct (settles o) as [[d r]|]; [|done].
  pose proof (timer_delay_le _ _ Ht Hf).
  destruct (d <? timer_delay (timeoutMs cfg))%Z eqn:E; [|done].
  apply Z.ltb_lt in E. lia.
Qed.

(** C1. A call [getWelcomeMessage(false)] on a service whose cache slot
    is fresh (a value is present and the clock reads an instant before
    the expiry) returns the cached value and leaves the whole state as it
    was: the trace gains no request and the cache slot is unchanged. *)
Theorem getWelcomeMessage_fresh_is_cached st :
  reachable cfg st ->
  fresh (cache st) (clock (world st)) = true ->
  outcome (getWelcomeMessage cfg false) st = Ok (value (cache st))
  /\ exec (getWelcomeMessage cfg false) st = st
  /\ requests (world (exec (getWelcomeMessage cfg false) st))
       = requests (world st).
Proof.
  intros Hr Hf. apply reachable_cache_inv in Hr.
  rewrite <- (cache_inv_hit_fresh _ _ Hr) in Hf.
  unfold outcome, exec. by rewrite getWelcomeMessage_hit.
Qed.

(** C2. When a call to [getWelcomeMessage] performs the fetch and the
    fetch throws, the call throws that same error (no cached value is
    returned in its place) and the cache slot after the call is the one
    before it. *)
Theorem getWelcomeMessage_failure_keeps_cache force st e :
  performs_fetch force st ->
  outcome (fetchWithTimeout cfg (apiUrl cfg) ∅) st = Throw e ->
  outcome (getWelcomeMessage cfg force) st = Throw e
  /\ cache (exec (getWelcomeMessage cfg force) st) = cache st.
Proof.
  intros Hm Hf. unfold outcome, exec in *.
  rewrite getWelcomeMessage_miss by done.
  pose proof (fetchWithTimeout_cache cfg (apiUrl cfg) ∅ st) as Hc.
  unfold exec in Hc.
  destruct (fetchWithTimeout _ _ _ st) as [[data|e'|] st']; cbn in *;
    by simplify_eq.
Qed.

(** C3, amended.  When a call to [getWelcomeMessage] performs the fetch
    and the fetch returns [data], the call returns the message extracted
    from [data] and the cache slot holds that message with the expiry
    instant [now + cacheTtlMs], where [now] is the clock read at the start
    of the call, before the fetch -- not the instant at which the slot is
    overwritten.  The sum is the exact one when [now], [cacheTtlMs] and
    their sum are safe integers. *)
Theorem getWelcomeMessage_success_caches force st data :
  performs_fetch force st ->
  outcome (fetchWithTimeout cfg (apiUrl cfg) ∅) st = Ok data ->
  safe_integer (clock (world st)) ->
  safe_integer (cacheTtlMs cfg) ->
  safe_integer (clock (world st) + cacheTtlMs cfg) ->
  outcome (getWelcomeMessage cfg force) st = Ok (extracted_message data)
  /\ cache (exec (getWelcomeMessage cfg force) st)
       = {| value := extracted_message data;
            expiresAt := (clock (world st) + cacheTtlMs cfg)%Z |}.
Proof.
  intros Hm Hf _ _ _. unfold outcome, exec in *.
  rewrite getWelcomeMessage_miss by done.
  destruct (fetchWithTimeout _ _ _ st) as [[data'|e'|] st']; cbn in *;
    by simplify_eq.
Qed.


(** C5. When a response with a status outside 200-299 arrives before the
    timer fires, the timed fetch throws an [Error] whose message is
    [HTTP <status>: <text>], where [<text>] is the body text, or the empty
    string when reading the body fails; [getWelcomeMessage] throws that
    error whenever it performs the fetch. *)
Theorem non_2xx_throws_http_error force url options st d res :
  hd Silent (network (world st)) = Responds d res ->
  (d < timer_delay (timeoutMs cfg))%Z ->
  ok res = false ->
  let txt := match text res with Some t => t | None => "" end in
  let err := Error ("HTTP " +:+ pretty (status res) +:+ ": " +:+ txt) in
  outcome (fetchWithTimeout cfg url options) st = Throw err
  /\ (performs_fetch force st ->
      outcome (getWelcomeMessage cfg force) st = Throw err)
  /\ (text res = None ->
      message err = "HTTP " +:+ pretty (status res) +:+ ": ").
Proof.
  intros Hnet Hd Hok txt err.
  assert (forall u o, fetchWithTimeout cfg u o st
            = (Throw err, after_fetch u o false (clock (world st) + d) st))
    as Hf.
  { intros u o. rewrite fetchWithTimeout_eq; cbn.
    rewrite Hnet, (in_time_wins d (Fulfilled res)) by done.
    unfold body_or_error. by rewrite Hok. }
  split; [|split].
  - unfold outcome. by rewrite Hf.
  - intros Hm. unfold outcome.
    rewrite getWelcomeMessage_miss by done. by rewrite Hf.
  - subst err txt. by intros ->.
Qed.

(** C6. With a timeout that is a duration (not negative): when a request
    issued through [fetchWithTimeout] is still in flight once the
    configured timeout has passed, the request is aborted and the call
    throws the abort error, which no HTTP error equals;
    [getWelcomeMessage] throws that same error whenever it performs the
    fetch. *)
Theorem timeout_aborts_request force url options st :
  (0 <= timeoutMs cfg)%Z ->
  in_flight_after (timeoutMs cfg) (hd Silent (network (world st))) ->
  outcome (fetchWithTimeout cfg url options) st = Throw AbortError
  /\ trace (world (exec (fetchWithTimeout cfg url options) st))
       = EvAbort :: EvFetch url options :: trace (world st)
  /\ (forall msg, AbortError <> Error msg)
  /\ (performs_fetch force st ->
      outcome (getWelcomeMessage cfg force) st = Throw AbortError).
Proof.
  intros Ht Hfl.
  assert (forall u o, fetchWithTimeout cfg u o st
            = (Throw AbortError,
               after_fetch u o true
                 (clock (world st) + timer_delay (timeoutMs cfg)) st))
    as Hf.
  { intros u o. rewrite fetchWithTimeout_eq; cbn.
    by rewrite in_flight_loses. }
  repeat split.
  - unfold outcome. by rewrite Hf.
  - unfold exec. by rewrite Hf.
  - intros msg. by unfold AbortError, Error.
  - intros Hm. unfold outcome.
    rewrite getWelcomeMessage_miss by done. by rewrite Hf.
Qed.

(** C7. [healthCheck] never throws and never stays pending.  When the
    probe returns, the result is [{ok: true, info: "up", endpoint}]; when
    the probe throws [err], whatever the error, the result is
    [{ok: false, info, endpoint}] with [info] the message of [err], or
    [unreachable] when that message is empty; [endpoint] is the
    configured URL.  The probe is a [HEAD] request to that URL. *)
Theorem healthCheck_never_raises st :
  match outcome (fetchWithTimeout cfg (apiUrl cfg)
                   {[ "method" := JStr "HEAD" ]}) st with
  | Ok _ =>
      outcome (healthCheck cfg) st
        = Ok {[ "ok" := JBool true; "info" := JStr "up";
                "endpoint" := JStr (apiUrl cfg) ]}
  | Throw err =>
      outcome (healthCheck cfg) st
        = Ok {[ "ok" := JBool false;
                "info" := JStr (if String.eqb (message err) ""
                                then "unreachable" else message err);
                "endpoint" := JStr (apiUrl cfg) ]}
  | Pending => False
  end
  /\ (exists r, outcome (healthCheck cfg) st = Ok r).
Proof.
  pose proof (fetchWithTimeout_settles cfg (apiUrl cfg)
                {[ "method" := JStr "HEAD" ]} st) as Hs.
  unfold outcome in *. rewrite healthCheck_eq.
  destruct (fetchWithTimeout _ _ _ st) as [[data|e|] st']; cbn in *.
  - eauto.
  - unfold str_or; cbn. destruct (String.eqb (message e) ""); cbn; eauto.
  - done.
Qed.

(** C8. A call [getWelcomeMessage(true)] hands a request for the
    configured URL to the network in every state, a fresh cache slot
    included: the trace gains exactly one request. *)
Theorem getWelcomeMessage_force_fetches st :
  requests (world (exec (getWelcomeMessage cfg true) st))
    = S (requests (world st))
  /\ exists pre,
      trace (world (exec (getWelcomeMessage cfg true) st))
        = pre ++ EvFetch (apiUrl cfg) ∅ :: trace (world st)
      /\ (pre = [] \/ pre = [EvAbort]).
Proof.
  assert (exists pre,
      trace (world (exec (getWelcomeMessage cfg true) st))
        = pre ++ EvFetch (apiUrl cfg) ∅ :: trace (world st)
      /\ (pre = [] \/ pre = [EvAbort])) as (pre & Htr & Hpre).
  { destruct (fetchWithTimeout_trace cfg (apiUrl cfg) ∅ st)
      as (pre & Htr & Hpre).
    exists pre. split; [|done]. unfold exec in *.
    rewrite getWelcomeMessage_miss by done.
    by destruct (fetchWithTimeout _ _ _ st) as [[data|e|] st']. }
  split; [|by exists pre].
  unfold requests. rewrite Htr.
  by destruct Hpre as [->| ->].
Qed.

(** C10. In every state a service instance can reach, the cache slot
    holds either [null] with expiry 0 or a truthy value; the empty string
    is never stored; and the truthiness test of line 41 agrees with
    freshness (a value is present and has not expired) at every
    instant. *)
Theorem cache_slot_invariant st :
  reachable cfg st ->
  cache_inv (cache st)
  /\ value (cache st) <> JStr ""
  /\ forall now, cache_hit (cache st) now = fresh (cache st) now.
Proof.
  intros Hr. apply reachable_cache_inv in Hr.
  split; [done|]. split.
  - destruct Hr as [[-> _]|Ht]; [done|]. intros E. by rewrite E in Ht.
  - intros now. by apply cache_inv_hit_fresh.
Qed.
End Claims.

(** ** The expiry instant *)

(** C3, as stated, fails: the expiry is not counted from the instant at
    which the slot is overwritten.  A service constructed at 1000 whose
    fetch takes 20 ms overwrites the slot at 1020 and stores the expiry
    31000, not 31020. *)
Lemma expiry_is_counted_from_call_start :
  ~ expiry_counted_from_overwrite cfg0 false (st_new [Responds 20 hi_there]).
Proof.
  intros Hspec.
  destruct (Hspec (JObj {[ "message" := JStr "Hi there" ]})) as [_ Hc].
  - vm_compute; reflexivity.
  - vm_compute; reflexivity.
  - vm_compute in Hc. discriminate Hc.
Qed.

(** ** Construction *)

(** With no environment variable set and no argument, the effective
    configuration is the typed one used in the sample runs. *)
Example default_effective_config :
  typed_config (initServices_cfg ∅ no_number ∅) = Some cfg0.
Proof. reflexivity. Qed.

(** C9, as stated, fails: a string supplied for [timeoutMs] is kept as it
    is; the effective timeout is not 5000. *)
Lemma malformed_timeout_is_kept :
  ~ malformed_falls_back ∅ no_number {[ "timeoutMs" := JStr "abc" ]}.
Proof.
  intros [Ht _]. specialize (Ht (JStr "abc") eq_refl eq_refl).
  vm_compute in Ht. discriminate Ht.
Qed.

(** C9, amended.  The effective configuration is the field-wise merge of
    the object passed to construction over the defaults: a supplied field
    wins with the value it was given, whatever that value is, and a missing
    field takes the default.  The fallback to 5000 and 30000 is that of the
    defaults alone: it applies when the environment variable is unset or its
    conversion to a number is falsy ([NaN] or 0). *)
Theorem initServices_merges_over_defaults
    (env : gmap string string) (StringToNumber : string -> JsVal)
    (config : gmap string JsVal) :
  (forall k v, config !! k = Some v ->
     initServices_cfg env StringToNumber config !! k = Some v)
  /\ (forall k, config !! k = None ->
     initServices_cfg env StringToNumber config !! k
       = DEFAULT_CONFIG env StringToNumber !! k)
  /\ (truthy (Number StringToNumber (env !! "SERVICE_TIMEOUT_MS")) = false ->
     DEFAULT_CONFIG env StringToNumber !! "timeoutMs" = Some (JNum 5000))
  /\ (truthy (Number StringToNumber (env !! "CACHE_TTL_MS")) = false ->
     DEFAULT_CONFIG env StringToNumber !! "cacheTtlMs" = Some (JNum 30000)).
Proof.
  unfold initServices_cfg. repeat split.
  - intros k v Hk. by apply lookup_union_Some_l.
  - intros k Hk. by apply lookup_union_r.
  - intros Hf. unfold DEFAULT_CONFIG, js_or. rewrite Hf.
    rewrite lookup_insert_ne by done. by rewrite lookup_insert_eq.
  - intros Hf. unfold DEFAULT_CONFIG, js_or. rewrite Hf.
    rewrite !lookup_insert_ne by done. by rewrite lookup_singleton_eq.
Qed.

(** ** The theorems at work on the sample runs *)

Lemma getWelcomeMessage_fresh_is_cached_witness :
  reachable cfg0 st_cached
  /\ fresh (cache st_cached) (clock (world st_cached)) = true
  /\ outcome (getWelcomeMessage cfg0 false) st_cached = Ok (JStr "Hi there")
  /\ exec (getWelcomeMessage cfg0 false) st_cached = st_cached.
Proof.
  assert (reachable cfg0 st_cached) as Hr
    by (apply reach_getWelcomeMessage, reach_init).
  assert (fresh (cache st_cached) (clock (world st_cached)) = true) as Hf
    by (vm_compute; reflexivity).
  destruct (getWelcomeMessage_fresh_is_cached cfg0 st_cached Hr Hf)
    as (Hout & Hst & _).
  repeat split; assumption.
Defined.

Lemma getWelcomeMessage_failure_keeps_cache_witness :
  outcome (getWelcomeMessage cfg0 false) (st_new [Responds 20 not_found])
    = Throw (Error "HTTP 404: gone")
  /\ cache (exec (getWelcomeMessage cfg0 false)
                 (st_new [Responds 20 not_found])) = empty_cache.
Proof.
  apply (getWelcomeMessage_failure_keeps_cache cfg0 false
           (st_new [Responds 20 not_found]) (Error "HTTP 404: gone"));
    vm_compute; reflexivity.
Defined.

Lemma getWelcomeMessage_success_caches_witness :
  outcome (getWelcomeMessage cfg0 false) (st_new [Responds 20 hi_there])
    = Ok (JStr "Hi there")
  /\ cache (exec (getWelcomeMessage cfg0 false)
                 (st_new [Responds 20 hi_there]))
       = {| value := JStr "Hi there"; expiresAt := 31000 |}.
Proof.
  assert (performs_fetch false (st_new [Responds 20 hi_there])) as Hm
    by (vm_compute; reflexivity).
  assert (outcome (fetchWithTimeout cfg0 (apiUrl cfg0) ∅)
            (st_new [Responds 20 hi_there])
          = Ok (JObj {[ "message" := JStr "Hi there" ]})) as Hf
    by (vm_compute; reflexivity).
  assert (safe_integer (clock (world (st_new [Responds 20 hi_there]))))
    as Hnow by (vm_compute; discriminate).
  assert (safe_integer (cacheTtlMs cfg0)) as Httl
    by (vm_compute; discriminate).
  assert (safe_integer (clock (world (st_new [Responds 20 hi_there]))
                        + cacheTtlMs cfg0)) as Hsum
    by (vm_compute; discriminate).
  exact (getWelcomeMessage_success_caches cfg0 false _ _ Hm Hf
           Hnow Httl Hsum).
Defined.


Lemma non_2xx_throws_http_error_witness :
  outcome (fetchWithTimeout cfg0 (apiUrl cfg0) ∅)
          (st_new [Responds 20 not_found])
    = Throw (Error "HTTP 404: gone").
Proof.
  apply (non_2xx_throws_http_error cfg0 false (apiUrl cfg0) ∅
           (st_new [Responds 20 not_found]) 20 not_found);
    vm_compute; reflexivity.
Defined.

Lemma timeout_aborts_request_witness :
  outcome (getWelcomeMessage cfg0 false) (st_new [Responds 6000 hi_there])
    = Throw AbortError.
Proof.
  apply (timeout_aborts_request cfg0 false (apiUrl cfg0) ∅
           (st_new [Responds 6000 hi_there])).
  - vm_compute; discriminate.
  - vm_compute; reflexivity.
  - vm_compute; reflexivity.
Defined.

Lemma cache_slot_invariant_witness :
  reachable cfg0 st_cached
  /\ cache_inv (cache st_cached)
  /\ value (cache st_cached) <> JStr "".
Proof.
  assert (reachable cfg0 st_cached) as Hr
    by (apply reach_getWelcomeMessage, reach_init).
  destruct (cache_slot_invariant cfg0 st_cached Hr) as (Hinv & Hne & _).
  repeat split; assumption.
Defined.

Lemma initServices_merges_over_defaults_witness :
  initServices_cfg ∅ no_number {[ "timeoutMs" := JNum 100 ]} !! "timeoutMs"
    = Some (JNum 100)
  /\ initServices_cfg ∅ no_number {[ "timeoutMs" := JNum 100 ]} !! "cacheTtlMs"
    = Some (JNum 30000).
Proof.
  destruct (initServices_merges_over_defaults ∅ no_number
              {[ "timeoutMs" := JNum 100 ]}) as (Hwin & Hmiss & _ & Httl).
  split.
  - apply Hwin. reflexivity.
  - rewrite Hmiss by reflexivity. apply Httl. reflexivity.
Defined.

(** * Further properties of the operations *)

Section Operations.
Variable cfg : Config.

Lemma fetchWithTimeout_requests url options st :
  requests (world (exec (fetchWithTimeout cfg url options) st))
    = S (requests (world st)).
Proof.
  destruct (fetchWithTimeout_trace cfg url options st) as (pre & Htr & Hpre).
  unfold requests. rewrite Htr. by destruct Hpre as [->| ->].
Qed.

Lemma getWelcomeMessage_miss_world force st :
  performs_fetch force st ->
  world (exec (getWelcomeMessage cfg force) st)
    = world (exec (fetchWithTimeout cfg (apiUrl cfg) ∅) st).
Proof.
  intros Hm. unfold exec. rewrite getWelcomeMessage_miss by done.
  by destruct (fetchWithTimeout _ _ _ st) as [[data|e|] st'].
Qed.

Lemma healthCheck_world st :
  world (exec (healthCheck cfg) st)
    = world (exec (fetchWithTimeout cfg (apiUrl cfg)
                     {[ "method" := JStr "HEAD" ]}) st).
Proof.
  unfold exec. rewrite healthCheck_eq.
  by destruct (fetchWithTimeout _ _ _ st) as [[data|e|] st'].
Qed.

Lemma fetchWithTimeout_timers url options st :
  timers (world (exec (fetchWithTimeout cfg url options) st))
    = delete (next_timer (world st)) (timers (world st)).
Proof.
  unfold exec. rewrite fetchWithTimeout_eq; cbn.
  by destruct (wins_race _ _) as [[d [res|e]]|].
Qed.

(** X1. Whatever way the timed fetch ends (a body, an HTTP error, a network
    failure, an abort), the timer it armed is no longer armed afterwards
    and every other timer is as it was. *)
Theorem fetchWithTimeout_releases_timer url options st id :
  timers (world (exec (fetchWithTimeout cfg url options) st)) !! id
    = if decide (id = next_timer (world st)) then None
      else timers (world st) !! id.
Proof.
  rewrite fetchWithTimeout_timers.
  case_decide as Hid; [subst; apply lookup_delete_eq|].
  by apply lookup_delete_ne.
Qed.

(** X2. No operation of the service leaves a timer armed that was not armed
    before the call: the timers armed after it are among those armed
    before it. *)
Theorem operations_leave_no_timer force st :
  timers (world (exec (getWelcomeMessage cfg force) st)) ⊆ timers (world st)
  /\ timers (world (exec (healthCheck cfg) st)) ⊆ timers (world st)
  /\ timers (world (exec clearCache st)) ⊆ timers (world st).
Proof.
  split; [|split]; [| |done].
  - destruct (negb force && cache_hit (cache st) (clock (world st))) eqn:Hhit.
    + unfold exec. by rewrite getWelcomeMessage_hit.
    + rewrite getWelcomeMessage_miss_world, fetchWithTimeout_timers by done.
      apply delete_subseteq.
  - rewrite healthCheck_world, fetchWithTimeout_timers.
    apply delete_subseteq.
Qed.

(** X3. One call to [getWelcomeMessage] hands no request to the network
    when the test of line 41 passes and exactly one when it does not: a
    failed fetch is never retried. *)
Theorem getWelcomeMessage_request_count force st :
  requests (world (exec (getWelcomeMessage cfg force) st))
    = if negb force && cache_hit (cache st) (clock (world st))
      then requests (world st)
      else S (requests (world st)).
Proof.
  destruct (negb force && cache_hit (cache st) (clock (world st))) eqn:Hhit.
  - unfold exec. by rewrite getWelcomeMessage_hit.
  - by rewrite getWelcomeMessage_miss_world, fetchWithTimeout_requests.
Qed.

(** X4. After [clearCache], the next [getWelcomeMessage(false)] hands a
    request to the network, whatever the slot held before and whatever the
    clock reads by then. *)
Theorem clearCache_forces_fetch st w :
  requests (world (exec (getWelcomeMessage cfg false)
                        (with_world w (exec clearCache st))))
    = S (requests w).
Proof.
  by rewrite getWelcomeMessage_miss_world, fetchWithTimeout_requests.
Qed.

(** X5. A cached value is no longer served from the instant [expiresAt]
    on: when the clock reads the expiry instant or a later one,
    [getWelcomeMessage(false)] hands a request to the network. *)
Theorem getWelcomeMessage_expired_fetches st :
  (expiresAt (cache st) <= clock (world st))%Z ->
  requests (world (exec (getWelcomeMessage cfg false) st))
    = S (requests (world st)).
Proof.
  intros Hexp.
  assert (performs_fetch false st) as Hm.
  { unfold performs_fetch, cache_hit.
    replace (expiresAt (cache st) >? clock (world st))%Z with false
      by (symmetry; rewrite Z.gtb_ltb; apply Z.ltb_ge; lia).
    by rewrite andb_false_r. }
  by rewrite getWelcomeMessage_miss_world, fetchWithTimeout_requests.
Qed.

(** X6. [healthCheck] does not consult or change the cache: in every state,
    a fresh slot included, it hands exactly one request to the network, a
    [HEAD] request for the configured URL, and leaves the cache slot as it
    was. *)
Theorem healthCheck_probes_live st :
  cache (exec (healthCheck cfg) st) = cache st
  /\ requests (world (exec (healthCheck cfg) st)) = S (requests (world st))
  /\ exists pre,
      trace (world (exec (healthCheck cfg) st))
        = pre ++ EvFetch (apiUrl cfg) {[ "method" := JStr "HEAD" ]}
                 :: trace (world st).
Proof.
  split; [apply healthCheck_cache|]. rewrite healthCheck_world. split.
  - apply fetchWithTimeout_requests.
  - destruct (fetchWithTimeout_trace cfg (apiUrl cfg)
                {[ "method" := JStr "HEAD" ]} st) as (pre & Htr & _).
    by exists pre.
Qed.

(** X7. Once a call has fetched and cached a message, every
    [getWelcomeMessage(false)] made while the clock reads an instant
    before [now + cacheTtlMs] ([now] being the start of the fetching call)
    returns that same message and changes nothing, whatever else happened
    in the world in between. *)
Theorem cached_message_is_served force st data w :
  performs_fetch force st ->
  outcome (fetchWithTimeout cfg (apiUrl cfg) ∅) st = Ok data ->
  (clock w < clock (world st) + cacheTtlMs cfg)%Z ->
  let st' := with_world w (exec (getWelcomeMessage cfg force) st) in
  outcome (getWelcomeMessage cfg false) st' = Ok (extracted_message data)
  /\ exec (getWelcomeMessage cfg false) st' = st'.
Proof.
  intros Hm Hf Hclk st'.
  assert (cache st' = {| value := extracted_message data;
                         expiresAt := (clock (world st) + cacheTtlMs cfg)%Z |})
    as Hc.
  { subst st'. unfold exec, outcome in *.
    cbn -[getWelcomeMessage fetchWithTimeout].
    rewrite getWelcomeMessage_miss by done.
    destruct (fetchWithTimeout _ _ _ st) as [[data'|e'|] st1]; cbn in *;
      by simplify_eq. }
  assert (negb false && cache_hit (cache st') (clock (world st')) = true)
    as Hhit.
  { rewrite Hc. unfold cache_hit; cbn.
    rewrite extracted_message_truthy, Z.gtb_ltb; cbn.
    by apply Z.ltb_lt. }
  unfold outcome, exec. rewrite getWelcomeMessage_hit by done.
  by rewrite Hc.
Qed.

(** X8. The expiry is counted from the start of the call, not from the
    arrival of the response: when the response takes at least
    [cacheTtlMs] to arrive, the message the call caches has already
    expired, and a [getWelcomeMessage(false)] made right after it fetches
    again. *)
Theorem slow_fetch_caches_expired force st d res :
  performs_fetch force st ->
  hd Silent (network (world st)) = Responds d res ->
  (d < timer_delay (timeoutMs cfg))%Z ->
  ok res = true ->
  (cacheTtlMs cfg <= d)%Z ->
  performs_fetch false (exec (getWelcomeMessage cfg force) st).
Proof.
  intros Hm Hnet Hd Hok Hslow. unfold exec.
  rewrite getWelcomeMessage_miss by done.
  rewrite fetchWithTimeout_eq; cbn.
  rewrite Hnet, (in_time_wins cfg d (Fulfilled res)) by done.
  unfold body_or_error. rewrite Hok; cbn.
  unfold performs_fetch, cache_hit; cbn.
  replace (clock (world st) + cacheTtlMs cfg >? clock (world st) + d)%Z
    with false by (symmetry; rewrite Z.gtb_ltb; apply Z.ltb_ge; lia).
  by rewrite andb_false_r.
Qed.

(** X9. A failure of the network that arrives before the timer fires
    (connection refused, name not resolved) is thrown as it is by the timed
    fetch and by [getWelcomeMessage]: it is not wrapped in an HTTP error,
    the request is not aborted, and the cache slot is left as it was. *)
Theorem network_failure_propagates force st d e :
  performs_fetch force st ->
  hd Silent (network (world st)) = Rejects d e ->
  (d < timer_delay (timeoutMs cfg))%Z ->
  outcome (getWelcomeMessage cfg force) st = Throw e
  /\ trace (world (exec (getWelcomeMessage cfg force) st))
       = EvFetch (apiUrl cfg) ∅ :: trace (world st)
  /\ cache (exec (getWelcomeMessage cfg force) st) = cache st.
Proof.
  intros Hm Hnet Hd. unfold outcome, exec.
  rewrite getWelcomeMessage_miss by done.
  rewrite fetchWithTimeout_eq; cbn.
  by rewrite Hnet, (in_time_wins cfg d (Rejected e)).
Qed.

(** X10. When a 2xx response arrives before the timer fires and its body
    parses to a value whose [message] member is truthy, the call returns
    that member as it is, of whatever type (it is not converted to a
    string), and caches it. *)
Theorem message_is_returned_verbatim force st d res v :
  performs_fetch force st ->
  hd Silent (network (world st)) = Responds d res ->
  (d < timer_delay (timeoutMs cfg))%Z ->
  ok res = true ->
  json res = Some v ->
  truthy (message_field v) = true ->
  outcome (getWelcomeMessage cfg force) st = Ok (message_field v)
  /\ value (cache (exec (getWelcomeMessage cfg force) st)) = message_field v.
Proof.
  intros Hm Hnet Hd Hok Hj Hv. unfold outcome, exec.
  rewrite getWelcomeMessage_miss by done.
  rewrite fetchWithTimeout_eq; cbn.
  rewrite Hnet, (in_time_wins cfg d (Fulfilled res)) by done.
  unfold body_or_error. rewrite Hok, Hj; cbn.
  assert (extracted_message v = message_field v) as ->; [|done].
  unfold extracted_message, js_or.
  assert (truthy v = true) as -> by (by destruct v).
  by rewrite Hv.
Qed.

(** X11. [getWelcomeMessage] never returns a falsy value: whatever the
    state and the answer of the network, a value it returns is truthy (it
    is never [null], [undefined] or the empty string). *)
Theorem getWelcomeMessage_returns_truthy force st v :
  outcome (getWelcomeMessage cfg force) st = Ok v -> truthy v = true.
Proof.
  unfold outcome.
  destruct (negb force && cache_hit (cache st) (clock (world st))) eqn:Hhit.
  - rewrite getWelcomeMessage_hit by done; cbn. intros [= <-].
    apply andb_prop in Hhit as [_ Hhit].
    by apply andb_prop in Hhit as [Hhit _].
  - rewrite getWelcomeMessage_miss by done.
    destruct (fetchWithTimeout _ _ _ st) as [[data|e|] st']; cbn; try done.
    intros [= <-]. apply extracted_message_truthy.
Qed.

(** X12. A refresh that fails does not cost the cached value: when a call
    performs the fetch and the fetch throws, a later
    [getWelcomeMessage(false)] made while the old value has not expired
    still returns it, without a request. *)
Theorem failed_refresh_keeps_serving force st e w :
  performs_fetch force st ->
  outcome (fetchWithTimeout cfg (apiUrl cfg) ∅) st = Throw e ->
  cache_hit (cache st) (clock w) = true ->
  let st' := with_world w (exec (getWelcomeMessage cfg force) st) in
  outcome (getWelcomeMessage cfg false) st' = Ok (value (cache st))
  /\ exec (getWelcomeMessage cfg false) st' = st'.
Proof.
  intros Hm Hf Hhit st'.
  assert (cache st' = cache st) as Hc.
  { subst st'. unfold exec, outcome in *.
    cbn -[getWelcomeMessage fetchWithTimeout].
    rewrite getWelcomeMessage_miss by done.
    pose proof (fetchWithTimeout_cache cfg (apiUrl cfg) ∅ st) as Hk.
    unfold exec in Hk.
    destruct (fetchWithTimeout _ _ _ st) as [[data'|e'|] st1]; cbn in *;
      by simplify_eq. }
  unfold outcome, exec.
  rewrite getWelcomeMessage_hit by (by rewrite Hc).
  by rewrite Hc.
Qed.

(** X13. [healthCheck] judges by the status line alone: when a 2xx
    response arrives before the timer fires it reports
    [{ok: true, info: "up", endpoint}] whatever the body is (unreadable and
    unparsable bodies included). *)
Theorem healthCheck_up_on_2xx st d res :
  hd Silent (network (world st)) = Responds d res ->
  (d < timer_delay (timeoutMs cfg))%Z ->
  ok res = true ->
  outcome (healthCheck cfg) st
    = Ok {[ "ok" := JBool true; "info" := JStr "up";
            "endpoint" := JStr (apiUrl cfg) ]}.
Proof.
  intros Hnet Hd Hok. unfold outcome.
  rewrite healthCheck_eq, fetchWithTimeout_eq; cbn.
  rewrite Hnet, (in_time_wins cfg d (Fulfilled res)) by done.
  unfold body_or_error. by rewrite Hok.
Qed.

(** X14. When a response with a status outside 200-299 arrives before the
    timer fires, [healthCheck] reports [ok: false] with the text
    [HTTP <status>: <body text>] as [info]; the fallback text
    [unreachable] is not used. *)
Theorem healthCheck_down_on_http_error st d res :
  hd Silent (network (world st)) = Responds d res ->
  (d < timer_delay (timeoutMs cfg))%Z ->
  ok res = false ->
  outcome (healthCheck cfg) st
    = Ok {[ "ok" := JBool false;
            "info" := JStr ("HTTP " +:+ pretty (status res) +:+ ": "
                              +:+ default "" (text res));
            "endpoint" := JStr (apiUrl cfg) ]}.
Proof.
  intros Hnet Hd Hok. unfold outcome.
  rewrite healthCheck_eq, fetchWithTimeout_eq; cbn.
  rewrite Hnet, (in_time_wins cfg d (Fulfilled res)) by done.
  unfold body_or_error. by rewrite Hok.
Qed.

(** X15. With a timeout that is not negative, when the probe is still in
    flight once the timeout has passed, [healthCheck] aborts it and reports
    [ok: false] with the message of the abort error as [info]. *)
Theorem healthCheck_down_on_timeout st :
  (0 <= timeoutMs cfg)%Z ->
  in_flight_after (timeoutMs cfg) (hd Silent (network (world st))) ->
  outcome (healthCheck cfg) st
    = Ok {[ "ok" := JBool false;
            "info" := JStr "This operation was aborted";
            "endpoint" := JStr (apiUrl cfg) ]}
  /\ trace (world (exec (healthCheck cfg) st))
       = EvAbort :: EvFetch (apiUrl cfg) {[ "method" := JStr "HEAD" ]}
           :: trace (world st).
Proof.
  intros Ht Hfl. unfold outcome, exec.
  rewrite healthCheck_eq, fetchWithTimeout_eq; cbn.
  by rewrite in_flight_loses.
Qed.
End Operations.

(** ** The defaults *)

(** X16. Whatever the environment holds, the three defaults are defined and
    truthy: no setting of the environment (an empty URL, a timeout or TTL
    of 0, text that is not a number) yields an empty default URL or a
    default duration of 0. *)
Theorem DEFAULT_CONFIG_is_truthy
    (env : gmap string string) (StringToNumber : string -> JsVal) :
  Forall (fun k =>
            exists v, DEFAULT_CONFIG env StringToNumber !! k = Some v
                      /\ truthy v = true)
         ["apiUrl"; "timeoutMs"; "cacheTtlMs"].
Proof.
  assert (forall a b, truthy b = true -> truthy (js_or a b) = true) as Hor.
  { intros a b Hb. unfold js_or. by destruct (truthy a) eqn:Ha. }
  assert (DEFAULT_CONFIG env StringToNumber !! "apiUrl"
          = Some (js_or (env_value (env !! "WELCOME_API_URL"))
                        (JStr "https://api.example.com/welcome"))) as Hurl
    by apply lookup_insert_eq.
  assert (DEFAULT_CONFIG env StringToNumber !! "timeoutMs"
          = Some (js_or (Number StringToNumber (env !! "SERVICE_TIMEOUT_MS"))
                        (JNum 5000))) as Hto.
  { unfold DEFAULT_CONFIG. rewrite lookup_insert_ne by done.
    apply lookup_insert_eq. }
  assert (DEFAULT_CONFIG env StringToNumber !! "cacheTtlMs"
          = Some (js_or (Number StringToNumber (env !! "CACHE_TTL_MS"))
                        (JNum 30000))) as Httl.
  { unfold DEFAULT_CONFIG. rewrite !lookup_insert_ne by done.
    apply lookup_singleton_eq. }
  repeat apply Forall_cons_2; [| | |done].
  - eexists; split; [exact Hurl|by apply Hor].
  - eexists; split; [exact Hto|by apply Hor].
  - eexists; split; [exact Httl|by apply Hor].
Qed.

(** X17. What the defaults take from the environment: a URL that is set
    and not empty is taken as it is, while one set to the empty string
    gives way to [https://api.example.com/welcome]; a timeout whose
    conversion to a number is truthy is taken as converted. *)
Theorem DEFAULT_CONFIG_reads_env
    (env : gmap string string) (StringToNumber : string -> JsVal)
    (u t : string) :
  env !! "WELCOME_API_URL" = Some u ->
  env !! "SERVICE_TIMEOUT_MS" = Some t ->
  truthy (StringToNumber t) = true ->
  DEFAULT_CONFIG env StringToNumber !! "apiUrl"
    = Some (JStr (if String.eqb u "" then "https://api.example.com/welcome"
                  else u))
  /\ DEFAULT_CONFIG env StringToNumber !! "timeoutMs"
       = Some (StringToNumber t).
Proof.
  intros Hu Ht Htr. unfold DEFAULT_CONFIG. split.
  - rewrite lookup_insert_eq, Hu. unfold js_or; cbn.
    by destruct (String.eqb u "").
  - rewrite lookup_insert_ne by done. rewrite lookup_insert_eq, Ht.
    unfold js_or; cbn. by rewrite Htr.
Qed.

(** ** The further properties at work on the sample runs *)

Lemma getWelcomeMessage_expired_fetches_witness :
  requests (world (exec (getWelcomeMessage cfg0 false)
                        (with_world (world_at 31000 [Responds 5 hi_there])
                                    st_cached)))
    = 1.
Proof.
  apply (getWelcomeMessage_expired_fetches cfg0
           (with_world (world_at 31000 [Responds 5 hi_there]) st_cached)).
  vm_compute; discriminate.
Defined.

Lemma cached_message_is_served_witness :
  outcome (getWelcomeMessage cfg0 false)
          (with_world (world_at 30999 [])
             (exec (getWelcomeMessage cfg0 false)
                   (st_new [Responds 20 hi_there])))
    = Ok (JStr "Hi there").
Proof.
  assert (performs_fetch false (st_new [Responds 20 hi_there])) as Hm
    by (vm_compute; reflexivity).
  assert (outcome (fetchWithTimeout cfg0 (apiUrl cfg0) ∅)
            (st_new [Responds 20 hi_there])
          = Ok (JObj {[ "message" := JStr "Hi there" ]})) as Hf
    by (vm_compute; reflexivity).
  assert (clock (world_at 30999 [])
          < clock (world (st_new [Responds 20 hi_there])) + cacheTtlMs cfg0)%Z
    as Hclk by (vm_compute; reflexivity).
  exact (proj1 (cached_message_is_served cfg0 false _ _ _ Hm Hf Hclk)).
Defined.

Lemma slow_fetch_caches_expired_witness :
  performs_fetch false
    (exec (getWelcomeMessage cfg_short false) (st_new [Responds 20 hi_there])).
Proof.
  apply (slow_fetch_caches_expired cfg_short false
           (st_new [Responds 20 hi_there]) 20 hi_there).
  - vm_compute; reflexivity.
  - reflexivity.
  - vm_compute; reflexivity.
  - reflexivity.
  - vm_compute; discriminate.
Defined.

Lemma network_failure_propagates_witness :
  outcome (getWelcomeMessage cfg0 false) (st_new [Rejects 20 refused])
    = Throw refused.
Proof.
  apply (network_failure_propagates cfg0 false
           (st_new [Rejects 20 refused]) 20 refused);
    vm_compute; reflexivity.
Defined.

Lemma message_is_returned_verbatim_witness :
  outcome (getWelcomeMessage cfg0 false) (st_new [Responds 20 hi_there])
    = Ok (JStr "Hi there").
Proof.
  assert (performs_fetch false (st_new [Responds 20 hi_there])) as Hm
    by (vm_compute; reflexivity).
  assert (20 < timer_delay (timeoutMs cfg0))%Z as Hd
    by (vm_compute; reflexivity).
  exact (proj1 (message_is_returned_verbatim cfg0 false
                  (st_new [Responds 20 hi_there]) 20 hi_there
                  (JObj {[ "message" := JStr "Hi there" ]})
                  Hm eq_refl Hd eq_refl eq_refl eq_refl)).
Defined.

Lemma getWelcomeMessage_returns_truthy_witness :
  outcome (getWelcomeMessage cfg0 false) (st_new [Responds 20 unparsable])
    = Ok (JStr "Welcome")
  /\ truthy (JStr "Welcome") = true.
Proof.
  assert (outcome (getWelcomeMessage cfg0 false)
            (st_new [Responds 20 unparsable]) = Ok (JStr "Welcome")) as Hout
    by (vm_compute; reflexivity).
  split; [exact Hout|].
  exact (getWelcomeMessage_returns_truthy cfg0 false _ _ Hout).
Defined.

Lemma failed_refresh_keeps_serving_witness :
  outcome (getWelcomeMessage cfg0 false)
          (with_world (world_at 3000 [])
             (exec (getWelcomeMessage cfg0 true)
                   (with_world (world_at 2000 [Responds 20 not_found])
                               st_cached)))
    = Ok (JStr "Hi there").
Proof.
  assert (performs_fetch true
            (with_world (world_at 2000 [Responds 20 not_found]) st_cached))
    as Hm by (vm_compute; reflexivity).
  assert (outcome (fetchWithTimeout cfg0 (apiUrl cfg0) ∅)
            (with_world (world_at 2000 [Responds 20 not_found]) st_cached)
          = Throw (Error "HTTP 404: gone")) as Hf
    by (vm_compute; reflexivity).
  assert (cache_hit
            (cache (with_world (world_at 2000 [Responds 20 not_found])
                               st_cached))
            (clock (world_at 3000 [])) = true) as Hhit
    by (vm_compute; reflexivity).
  exact (proj1 (failed_refresh_keeps_serving cfg0 true _ _ _ Hm Hf Hhit)).
Defined.

Lemma healthCheck_up_on_2xx_witness :
  outcome (healthCheck cfg0) (st_new [Responds 20 unparsable])
    = Ok {[ "ok" := JBool true; "info" := JStr "up";
            "endpoint" := JStr "https://api.example.com/welcome" ]}.
Proof.
  apply (healthCheck_up_on_2xx cfg0 (st_new [Responds 20 unparsable])
           20 unparsable);
    vm_compute; reflexivity.
Defined.

Lemma healthCheck_down_on_http_error_witness :
  outcome (healthCheck cfg0) (st_new [Responds 20 not_found])
    = Ok {[ "ok" := JBool false; "info" := JStr "HTTP 404: gone";
            "endpoint" := JStr "https://api.example.com/welcome" ]}.
Proof.
  assert (20 < timer_delay (timeoutMs cfg0))%Z as Hd
    by (vm_compute; reflexivity).
  exact (healthCheck_down_on_http_error cfg0
           (st_new [Responds 20 not_found]) 20 not_found eq_refl Hd eq_refl).
Defined.

Lemma healthCheck_down_on_timeout_witness :
  outcome (healthCheck cfg0) (st_new [])
    = Ok {[ "ok" := JBool false;
            "info" := JStr "This operation was aborted";
            "endpoint" := JStr "https://api.example.com/welcome" ]}.
Proof.
  apply (healthCheck_down_on_timeout cfg0 (st_new [])).
  - vm_compute; discriminate.
  - vm_compute; exact I.
Defined.

Lemma DEFAULT_CONFIG_reads_env_witness :
  DEFAULT_CONFIG {[ "WELCOME_API_URL" := ""; "SERVICE_TIMEOUT_MS" := "250" ]}
                 number_250 !! "apiUrl"
    = Some (JStr "https://api.example.com/welcome")
  /\ DEFAULT_CONFIG {[ "WELCOME_API_URL" := ""; "SERVICE_TIMEOUT_MS" := "250" ]}
                    number_250 !! "timeoutMs"
       = Some (JNum 250).
Proof.
  apply (DEFAULT_CONFIG_reads_env
           {[ "WELCOME_API_URL" := ""; "SERVICE_TIMEOUT_MS" := "250" ]}
           number_250 "" "250");
    vm_compute; reflexivity.
Defined.
